(** * movies-api: the Express router of [app.js] over the [mysql2] pool of [db.js]

    The service is five route handlers.  Each one reads the request, awaits
    exactly one [db.query] and turns what the promise settles to into a JSON
    response.  The handlers are embedded as small programs that expose the
    awaited query ([Await]); they are run against any storage by [run], and
    against a table model of the [movies] table in [MovieTable]. *)

From stdpp Require Import gmap strings list fin_maps.
From Stdlib Require Import ZArith DecimalString DecimalPos DecimalZ.

Open Scope Z_scope.

(** ** JavaScript values

    Objects are maps from property names to values: the handlers only read
    properties by name, spread them and hand them to [res.json].  Numbers are
    the integers (ids, row counts, and the number [0] of the truthiness
    test). *)

#[warnings="-register-all"] Inductive JsVal : Type :=
| JUndefined
| JNull
| JBool (b : bool)
| JNum (n : Z)
| JStr (s : string)
| JArr (l : list JsVal)
| JObj (o : gmap string JsVal).

(** [ToBoolean]: what [||] tests. *)
Definition truthy (v : JsVal) : bool :=
  match v with
  | JUndefined | JNull => false
  | JBool b => b
  | JNum n => negb (n =? 0)
  | JStr s => negb (String.eqb s "")
  | JArr _ | JObj _ => true
  end.

(** [a || b] *)
Definition js_or (a b : JsVal) : JsVal := if truthy a then a else b.

(** [o.k], and the binding that [const { k } = o] gives to [k]. *)
Definition prop (o : gmap string JsVal) (k : string) : JsVal :=
  default JUndefined (o !! k).

(** [v === n] for a number literal [n]. *)
Definition strict_eq_num (v : JsVal) (n : Z) : bool :=
  match v with
  | JNum m => m =? n
  | _ => false
  end.

(** [{ id: v, ...o }]: [id] is written first, then every own property of [o]
    is copied over it. *)
Definition id_then_spread (v : JsVal) (o : gmap string JsVal) : gmap string JsVal :=
  o ∪ {["id" := v]}.

(** ** What [db.query] settles to

    [const [rows] = await db.query(..)] binds the first component of the
    resolved pair: an array of row objects for a SELECT, a result header for
    INSERT, UPDATE and DELETE.  A rejected promise is caught with an [Error]. *)

Record ResultSetHeader : Type :=
  { affectedRows : Z;
    insertId : Z }.

Inductive QueryResult : Type :=
| Rows (rows : list (gmap string JsVal))
| Header (h : ResultSetHeader).

Record Error : Type := { message : string }.

Inductive Outcome : Type :=
| Resolved (r : QueryResult)
| Rejected (err : Error).

(** [rows.length] *)
Definition length_of (r : QueryResult) : JsVal :=
  match r with
  | Rows rows => JNum (Z.of_nat (length rows))
  | Header _ => JUndefined
  end.

(** [rows[0]] *)
Definition first_of (r : QueryResult) : JsVal :=
  match r with
  | Rows (row :: _) => JObj row
  | _ => JUndefined
  end.

(** [result.affectedRows] *)
Definition affectedRows_of (r : QueryResult) : JsVal :=
  match r with
  | Header h => JNum (affectedRows h)
  | Rows _ => JUndefined
  end.

(** [result.insertId] *)
Definition insertId_of (r : QueryResult) : JsVal :=
  match r with
  | Header h => JNum (insertId h)
  | Rows _ => JUndefined
  end.

(** The bound value itself, as [res.json(rows)] receives it; of a header only
    the two fields that the handlers read are kept. *)
Definition value_of (r : QueryResult) : JsVal :=
  match r with
  | Rows rows => JArr (JObj <$> rows)
  | Header h =>
      JObj (<["affectedRows" := JNum (affectedRows h)]> {["insertId" := JNum (insertId h)]})
  end.

(** ** Requests, responses and handler programs *)

(** The request as a handler sees it: [req.params] and the [req.body] that
    [express.json()] parsed. *)
Record Req : Type :=
  { params : gmap string string;
    body : gmap string JsVal }.

(** [req.params.id] *)
Definition param_id (req : Req) : JsVal :=
  from_option JStr JUndefined (params req !! "id").

Record Response : Type :=
  { status : Z;
    payload : JsVal }.

(** [res.json(v)] and [res.status(c).json(v)] *)
Definition json (v : JsVal) : Response := {| status := 200; payload := v |}.
Definition status_json (c : Z) (v : JsVal) : Response := {| status := c; payload := v |}.

Inductive Prog : Type :=
| Respond (r : Response)
| Await (sql : string) (values : list JsVal) (k : Outcome → Prog).

(** [{ message: s }] and [{ error: s }] *)
Definition message_body (s : string) : JsVal := JObj {["message" := JStr s]}.
Definition error_body (s : string) : JsVal := JObj {["error" := JStr s]}.

(** The [catch (err)] block shared by the five handlers. *)
Definition catch_block (err : Error) : Prog :=
  Respond (status_json 500 (error_body (message err))).

(** [try { const [r] = await db.query(sql, values); ... } catch (err) { ... }] *)
Definition try_query (sql : string) (values : list JsVal) (then_ : QueryResult → Prog) : Prog :=
  Await sql values (λ o,
    match o with
    | Resolved r => then_ r
    | Rejected err => catch_block err
    end).

Definition SELECT_ALL : string := "SELECT * FROM movies".
Definition SELECT_BY_ID : string := "SELECT * FROM movies WHERE id = ?".
Definition INSERT_MOVIE : string :=
  "INSERT INTO movies (title_file, disk, file, sub_file, type_file, size, is_new) VALUES (?, ?, ?, ?, ?, ?, ?)".
Definition UPDATE_MOVIE : string :=
  "UPDATE movies SET title_file = ?, disk = ?, file = ?, sub_file = ?, type_file = ?, size = ?, is_new = ? WHERE id = ?".
Definition DELETE_MOVIE : string := "DELETE FROM movies WHERE id = ?".

Definition film_non_trouve : Response := status_json 404 (message_body "Film non trouvé").
Definition film_supprime : Response := json (message_body "Film supprimé avec succès").
Definition route_non_trouvee : Response := status_json 404 (message_body "Route non trouvée").

(** [app.get("/movies", ...)] *)
Definition get_movies (req : Req) : Prog :=
  try_query SELECT_ALL [] (λ rows, Respond (json (value_of rows))).

(** [app.get("/movies/:id", ...)] *)
Definition get_movie_by_id (req : Req) : Prog :=
  try_query SELECT_BY_ID [param_id req] (λ rows,
    if strict_eq_num (length_of rows) 0
    then Respond film_non_trouve
    else Respond (json (first_of rows))).

(** The values bound by the INSERT of [app.post("/movies", ...)]. *)
Definition insert_values (b : gmap string JsVal) : list JsVal :=
  [prop b "title_file"; prop b "disk"; prop b "file"; prop b "sub_file";
   prop b "type_file"; prop b "size"; js_or (prop b "is_new") (JBool false)].

(** [app.post("/movies", ...)] *)
Definition post_movies (req : Req) : Prog :=
  try_query INSERT_MOVIE (insert_values (body req)) (λ result,
    Respond (status_json 201 (JObj (id_then_spread (insertId_of result) (body req))))).

(** The values bound by the UPDATE of [app.put("/movies/:id", ...)]. *)
Definition update_values (req : Req) : list JsVal :=
  let b := body req in
  [prop b "title_file"; prop b "disk"; prop b "file"; prop b "sub_file";
   prop b "type_file"; prop b "size"; prop b "is_new"; param_id req].

(** [app.put("/movies/:id", ...)] *)
Definition put_movie (req : Req) : Prog :=
  try_query UPDATE_MOVIE (update_values req) (λ result,
    if strict_eq_num (affectedRows_of result) 0
    then Respond film_non_trouve
    else Respond (json (JObj (id_then_spread (param_id req) (body req))))).

(** [app.delete("/movies/:id", ...)] *)
Definition delete_movie (req : Req) : Prog :=
  try_query DELETE_MOVIE [param_id req] (λ result,
    if strict_eq_num (affectedRows_of result) 0
    then Respond film_non_trouve
    else Respond film_supprime).

(** The catch-all [app.use((req, res) => ...)] registered last. *)
Definition catch_all : Prog := Respond route_non_trouvee.

(** ** Running a handler against a storage *)

Section Run.
Context {Db : Type}.
Variable query : string → list JsVal → Db → Outcome * Db.

Fixpoint run (p : Prog) (db : Db) : Response * Db :=
  match p with
  | Respond r => (r, db)
  | Await sql values k =>
      let '(o, db') := query sql values db in
      run (k o) db'
  end.
End Run.

(** ** The Express application: middleware and routes in registration order *)

Inductive Method : Type := GET | HEAD | POST | PUT | DELETE | PATCH | OPTIONS.

Definition method_eqb (a b : Method) : bool :=
  match a, b with
  | GET, GET | HEAD, HEAD | POST, POST | PUT, PUT
  | DELETE, DELETE | PATCH, PATCH | OPTIONS, OPTIONS => true
  | _, _ => false
  end.

(** A route registered for GET also answers HEAD. *)
Definition handles_method (route_method request_method : Method) : bool :=
  method_eqb route_method request_method
  || (method_eqb request_method HEAD && method_eqb route_method GET).

(** The HTTP request: method, path without the query string, parsed body. *)
Record HttpRequest : Type :=
  { method : Method;
    path : string;
    json_body : gmap string JsVal }.

(** A route path is a sequence of literal segments and named parameters:
    ["/movies"] and ["/movies/:id"]. *)
Inductive Segment : Type :=
| Lit (s : string)
| Param (name : string).

Fixpoint segments (s : string) : list string :=
  match s with
  | EmptyString => [EmptyString]
  | String c s' =>
      if Ascii.eqb c (Ascii.ascii_of_nat 47) then EmptyString :: segments s'
      else match segments s' with
           | x :: xs => String c x :: xs
           | [] => [String c EmptyString]
           end
  end.

Definition lower_ascii (c : Ascii.ascii) : Ascii.ascii :=
  let n := Ascii.nat_of_ascii c in
  if ((65 <=? n) && (n <=? 90))%nat then Ascii.ascii_of_nat (n + 32) else c.

Fixpoint lower (s : string) : string :=
  match s with
  | EmptyString => EmptyString
  | String c s' => String (lower_ascii c) (lower s')
  end.

Fixpoint slash_free (s : string) : bool :=
  match s with
  | EmptyString => true
  | String c s' => negb (Ascii.eqb c (Ascii.ascii_of_nat 47)) && slash_free s'
  end.

(** Express matches paths without regard to case and accepts one trailing
    slash; a parameter takes one whole non-empty segment. *)
Definition drop_trailing_slash (segs : list string) : list string :=
  match reverse segs with
  | EmptyString :: r => reverse r
  | _ => segs
  end.

(** *** [decodeURIComponent]

    Express binds a route parameter to [decodeURIComponent] of its path
    segment.  Strings are byte strings here, a character outside ASCII being
    its UTF-8 bytes: an escape [%XY] stands for one byte, and the escaped
    bytes from [0x80] on have to form well-formed UTF-8, or the function
    throws a [URIError] ([None]). *)

Definition hex_digit (c : Ascii.ascii) : option N :=
  let n := Ascii.N_of_ascii c in
  if ((48 <=? n) && (n <=? 57))%N then Some (n - 48)%N
  else if ((65 <=? n) && (n <=? 70))%N then Some (n - 55)%N
  else if ((97 <=? n) && (n <=? 102))%N then Some (n - 87)%N
  else None.

Inductive UriToken : Type :=
| Plain (c : Ascii.ascii)
| Escaped (byte : N).

Fixpoint uri_tokens (s : string) : option (list UriToken) :=
  match s with
  | EmptyString => Some []
  | String c s' =>
      if Ascii.eqb c (Ascii.ascii_of_nat 37) then
        match s' with
        | String h (String l rest) =>
            match hex_digit h, hex_digit l with
            | Some a, Some b => cons (Escaped (16 * a + b)%N) <$> uri_tokens rest
            | _, _ => None
            end
        | _ => None
        end
      else cons (Plain c) <$> uri_tokens s'
  end.

(** An escaped byte within the bounds that its place in a UTF-8 sequence
    allows. *)
Definition escaped_within (lo hi : N) (t : UriToken) : option Ascii.ascii :=
  match t with
  | Escaped b => if ((lo <=? b) && (b <=? hi))%N then Some (Ascii.ascii_of_N b) else None
  | Plain _ => None
  end.

(** The bounds of the second byte of a sequence, by its first byte, and the
    number of bytes that follow the first; [None] for a byte that starts no
    sequence. *)
Definition utf8_lead (b : N) : option (nat * N * N) :=
  if ((194 <=? b) && (b <=? 223))%N then Some (1%nat, 128%N, 191%N)
  else if (b =? 224)%N then Some (2%nat, 160%N, 191%N)
  else if (b =? 237)%N then Some (2%nat, 128%N, 159%N)
  else if ((225 <=? b) && (b <=? 239))%N then Some (2%nat, 128%N, 191%N)
  else if (b =? 240)%N then Some (3%nat, 144%N, 191%N)
  else if ((241 <=? b) && (b <=? 243))%N then Some (3%nat, 128%N, 191%N)
  else if (b =? 244)%N then Some (3%nat, 128%N, 143%N)
  else None.

Fixpoint decode_tokens (ts : list UriToken) : option string :=
  match ts with
  | [] => Some EmptyString
  | Plain c :: ts' => String c <$> decode_tokens ts'
  | Escaped b :: ts' =>
      if (b <? 128)%N then String (Ascii.ascii_of_N b) <$> decode_tokens ts'
      else
        match utf8_lead b, ts' with
        | Some (1%nat, lo, hi), t1 :: rest =>
            match escaped_within lo hi t1 with
            | Some c1 =>
                (λ s, String (Ascii.ascii_of_N b) (String c1 s)) <$> decode_tokens rest
            | None => None
            end
        | Some (2%nat, lo, hi), t1 :: t2 :: rest =>
            match escaped_within lo hi t1, escaped_within 128 191 t2 with
            | Some c1, Some c2 =>
                (λ s, String (Ascii.ascii_of_N b) (String c1 (String c2 s)))
                  <$> decode_tokens rest
            | _, _ => None
            end
        | Some (3%nat, lo, hi), t1 :: t2 :: t3 :: rest =>
            match escaped_within lo hi t1, escaped_within 128 191 t2,
                  escaped_within 128 191 t3 with
            | Some c1, Some c2, Some c3 =>
                (λ s, String (Ascii.ascii_of_N b) (String c1 (String c2 (String c3 s))))
                  <$> decode_tokens rest
            | _, _, _ => None
            end
        | _, _ => None
        end
  end.

Definition decodeURIComponent (s : string) : option string :=
  uri_tokens s ≫= decode_tokens.

(** What matching a route path against a request path gives: no match, the
    parameters, or the segment that [decodeURIComponent] threw on. *)
Inductive PathMatch : Type :=
| NoMatch
| Matched (ps : gmap string string)
| DecodeFailed (val : string).

Record Route : Type :=
  { route_method : Method;
    route_path : list Segment;
    handler : Req → Prog }.

(** The five movie routes, in the order [app.js] registers them. *)
Definition routes : list Route :=
  [ {| route_method := GET; route_path := [Lit "movies"]; handler := get_movies |};
    {| route_method := GET; route_path := [Lit "movies"; Param "id"];
       handler := get_movie_by_id |};
    {| route_method := POST; route_path := [Lit "movies"]; handler := post_movies |};
    {| route_method := PUT; route_path := [Lit "movies"; Param "id"]; handler := put_movie |};
    {| route_method := DELETE; route_path := [Lit "movies"; Param "id"];
       handler := delete_movie |} ].

(** The five handlers. *)
Definition handlers : list (Req → Prog) := handler <$> routes.

(** The answer of Express to a parameter that cannot be decoded: status 400,
    from the error "Failed to decode param"; the page that the default error
    handler makes of the error is not modelled further. *)
Definition bad_request (val : string) : Response :=
  {| status := 400;
     payload := JStr ("Failed to decode param '" +:+ val +:+ "'") |}.

Section Router.

(** The decoder of parameters, [decodeURIComponent] in the application. *)
Variable decode : string → option string.

(** The whole path has to match before a parameter is decoded; the first
    parameter that cannot be decoded is the one reported. *)
Fixpoint match_segments (pat : list Segment) (segs : list string) : PathMatch :=
  match pat, segs with
  | [], [] => Matched ∅
  | Lit s :: pat', x :: segs' =>
      if String.eqb (lower s) (lower x) then match_segments pat' segs' else NoMatch
  | Param name :: pat', x :: segs' =>
      if String.eqb x "" then NoMatch
      else
        match match_segments pat' segs' with
        | NoMatch => NoMatch
        | later =>
            match decode x, later with
            | None, _ => DecodeFailed x
            | Some v, Matched ps => Matched (<[name := v]> ps)
            | Some _, _ => later
            end
        end
  | _, _ => NoMatch
  end.

Definition match_path (pat : list Segment) (p : string) : PathMatch :=
  match segments p with
  | EmptyString :: segs => match_segments pat (drop_trailing_slash segs)
  | _ => NoMatch
  end.

(** The routes are tried in order.  A route whose path matches and whose
    method is the request's runs its handler.  A parameter that cannot be
    decoded leaves an error pending, whatever the method of that route: no
    later route matches then, the catch-all passes the error on, and the
    request is answered 400. *)
Fixpoint dispatch_pending (pending : option string) (rs : list Route) (r : HttpRequest)
  : Prog :=
  match rs with
  | [] =>
      match pending with
      | Some val => Respond (bad_request val)
      | None => catch_all
      end
  | rt :: rs' =>
      match match_path (route_path rt) (path r) with
      | NoMatch => dispatch_pending pending rs' r
      | DecodeFailed val => dispatch_pending (Some (default val pending)) rs' r
      | Matched ps =>
          match pending with
          | Some _ => dispatch_pending pending rs' r
          | None =>
              if handles_method (route_method rt) (method r)
              then handler rt {| params := ps; body := json_body r |}
              else dispatch_pending pending rs' r
          end
      end
  end.

Definition dispatch (rs : list Route) (r : HttpRequest) : Prog :=
  dispatch_pending None rs r.

(** What one route makes of a request while no error is pending: nothing, its
    handler, or the 400 of a parameter that cannot be decoded. *)
Definition outcome (rt : Route) (r : HttpRequest) : option Prog :=
  match match_path (route_path rt) (path r) with
  | NoMatch => None
  | DecodeFailed val => Some (Respond (bad_request val))
  | Matched ps =>
      if handles_method (route_method rt) (method r)
      then Some (handler rt {| params := ps; body := json_body r |})
      else None
  end.

(** [express.json()] runs first: the request comes with its body parsed.
    [app.use("/", swaggerUi.serve, swaggerUi.setup(swaggerDocs))] is registered
    before the routes: the routes see the requests that it passes on. *)
Definition app (swagger : HttpRequest → option Response) (r : HttpRequest) : Prog :=
  match swagger r with
  | Some page => Respond page
  | None => dispatch routes r
  end.

End Router.

(** The page of the generated API documentation. *)
Definition swagger_page : Response := {| status := 200; payload := JStr "Swagger UI" |}.

(** Modelled from the spec: the documentation middleware, which is not part of
    this repository; the spec has the generated API documentation "served at
    the service root".  Mounted with [app.use("/", ..)] it sees every request
    of every method and path.  [swaggerUi.serve] answers for the script and the
    static files of the documentation, which are the library's and a parameter
    here; [swaggerUi.setup(swaggerDocs)] then sends the page to whatever
    request reaches it and passes nothing on. *)
Definition swagger_ui (serve : HttpRequest → option Response) (r : HttpRequest)
  : option Response :=
  match serve r with
  | Some file => Some file
  | None => Some swagger_page
  end.

(** ** Movie inputs *)

Definition is_string (v : JsVal) : bool :=
  match v with JStr _ => true | _ => false end.

Definition is_boolean (v : JsVal) : bool :=
  match v with JBool _ => true | _ => false end.

Definition string_properties : list string :=
  ["title_file"; "disk"; "file"; "sub_file"; "type_file"; "size"].

Definition movie_input_property (kv : string * JsVal) : bool :=
  if bool_decide (kv.1 ∈ string_properties) then is_string kv.2
  else String.eqb kv.1 "is_new" && is_boolean kv.2.

(** [MovieInput] of the OpenAPI annotations, as a closed record: [title_file]
    is required and a string, [disk], [file], [sub_file], [type_file] and [size]
    are strings, [is_new] is a boolean, and there is no other property. *)
Definition is_movie_input (b : gmap string JsVal) : bool :=
  is_string (prop b "title_file") && forallb movie_input_property (map_to_list b).

(** The decimal text of a number, as a client writes a returned id into the
    path of its next request. *)
Definition decimal (n : Z) : string := NilZero.string_of_int (Z.to_int n).

(** ** The movies table *)

(** Modelled from the spec: the storage behind [db.query], that is the MySQL
    server and the schema of the [movies] table, neither of which is part of
    this repository.  Per the spec, the table holds the Movie entity, [id] is
    an integer primary key "generated by storage on insert", unique and
    immutable; a read returns a sequence of rows, a write returns "an
    affected-row count plus generated id"; an update overwrites the seven
    columns unconditionally; a value that is missing is stored as null.  A
    column holds the value that was bound for it; rows are kept in insertion
    order; ids are compared as integers, a bound string being read as a
    decimal numeral. *)
Module MovieTable.

Record MovieRow : Type :=
  { row_id : Z;
    fields : gmap string JsVal }.

Record Table : Type :=
  { rows : list MovieRow;
    auto_increment : Z }.

Definition empty_table : Table := {| rows := []; auto_increment := 1 |}.

Definition columns : list string :=
  ["title_file"; "disk"; "file"; "sub_file"; "type_file"; "size"; "is_new"].

Definition to_sql (v : JsVal) : JsVal :=
  match v with
  | JUndefined => JNull
  | _ => v
  end.

Definition record_of (values : list JsVal) : gmap string JsVal :=
  list_to_map (zip columns (to_sql <$> values)).

Definition row_json (r : MovieRow) : gmap string JsVal :=
  <["id" := JNum (row_id r)]> (fields r).

Definition sql_int (v : JsVal) : option Z :=
  match v with
  | JNum n => Some n
  | JStr s => Z.of_int <$> NilZero.int_of_string s
  | _ => None
  end.

(** [WHERE id = ?] *)
Definition has_id (v : JsVal) (r : MovieRow) : bool :=
  match sql_int v with
  | Some n => row_id r =? n
  | None => false
  end.

Definition ok (affected generated : Z) : Outcome :=
  Resolved (Header {| affectedRows := affected; insertId := generated |}).

Definition failed (s : string) : Outcome := Rejected {| message := s |}.

(** Modelled from the spec: what the five statements of [app.js] do to the
    table and what they return; any other statement is rejected. *)
Definition mysql_query (sql : string) (values : list JsVal) (t : Table) : Outcome * Table :=
  if String.eqb sql SELECT_ALL then
    (Resolved (Rows (row_json <$> rows t)), t)
  else if String.eqb sql SELECT_BY_ID then
    match values with
    | [v] => (Resolved (Rows (row_json <$> filter (has_id v) (rows t))), t)
    | _ => (failed "ER_PARSE_ERROR", t)
    end
  else if String.eqb sql INSERT_MOVIE then
    match values with
    | [_; _; _; _; _; _; _] =>
        let r := {| row_id := auto_increment t; fields := record_of values |} in
        (ok 1 (auto_increment t),
         {| rows := rows t ++ [r]; auto_increment := auto_increment t + 1 |})
    | _ => (failed "ER_PARSE_ERROR", t)
    end
  else if String.eqb sql UPDATE_MOVIE then
    match values with
    | [a; b; c; d; e; f; g; v] =>
        let new := record_of [a; b; c; d; e; f; g] in
        (ok (Z.of_nat (length (filter (has_id v) (rows t)))) 0,
         {| rows := (λ r, if has_id v r then {| row_id := row_id r; fields := new |} else r)
                      <$> rows t;
            auto_increment := auto_increment t |})
    | _ => (failed "ER_PARSE_ERROR", t)
    end
  else if String.eqb sql DELETE_MOVIE then
    match values with
    | [v] =>
        (ok (Z.of_nat (length (filter (has_id v) (rows t)))) 0,
         {| rows := filter (λ r, ¬ has_id v r) (rows t);
            auto_increment := auto_increment t |})
    | _ => (failed "ER_PARSE_ERROR", t)
    end
  else (failed "ER_PARSE_ERROR", t).

(** Ids are unique and below the counter that generates the next one. *)
Definition wf (t : Table) : Prop :=
  NoDup (row_id <$> rows t) ∧ Forall (λ r, row_id r < auto_increment t) (rows t).

(** The tables that a sequence of statements makes of the empty table. *)
Inductive reachable : Table → Prop :=
| reachable_empty : reachable empty_table
| reachable_query sql values t :
    reachable t → reachable (mysql_query sql values t).2.

End MovieTable.

(** ** What a handler asks of the storage *)

(** The statement and the values of the query that a program awaits first. *)
Definition awaited (p : Prog) : option (string * list JsVal) :=
  match p with
  | Await sql values _ => Some (sql, values)
  | Respond _ => None
  end.

(** The number of [?] placeholders in the text of a statement. *)
Fixpoint placeholders (sql : string) : nat :=
  match sql with
  | EmptyString => 0%nat
  | String c sql' =>
      ((if Ascii.eqb c (Ascii.ascii_of_nat 63) then 1 else 0) + placeholders sql')%nat
  end.

(** The five statements, in the order of the handlers. *)
Definition statements : list string :=
  [SELECT_ALL; SELECT_BY_ID; INSERT_MOVIE; UPDATE_MOVIE; DELETE_MOVIE].

(** The seven properties that POST and PUT take from the request body. *)
Definition bound_properties : list string :=
  ["title_file"; "disk"; "file"; "sub_file"; "type_file"; "size"; "is_new"].

(** ** Configuration *)

(** [process.env.NAME]: a string, or [undefined] when the variable is unset. *)
Definition env_var (env : gmap string string) (name : string) : JsVal :=
  from_option JStr JUndefined (env !! name).

(** The options that [db.js] hands to [mysql.createPool]. *)
Record PoolOptions : Type :=
  { host : JsVal;
    user : JsVal;
    password : JsVal;
    database : JsVal }.

Definition pool_options (env : gmap string string) : PoolOptions :=
  {| host := js_or (env_var env "DB_HOST") (JStr "localhost");
     user := env_var env "DB_USER";
     password := env_var env "DB_PASSWORD";
     database := env_var env "DB_NAME" |}.

(** [const port = process.env.PORT || 3000] *)
Definition port (env : gmap string string) : JsVal :=
  js_or (env_var env "PORT") (JNum 3000).

(** * Properties *)

Import MovieTable.

(** ** Running the handlers *)

Section RunFacts.
Context {Db : Type}.
Variable query : string → list JsVal → Db → Outcome * Db.

Lemma run_try_query sql values then_ db :
  run query (try_query sql values then_) db =
    match query sql values db with
    | (Resolved r, db') => run query (then_ r) db'
    | (Rejected err, db') => (status_json 500 (error_body (message err)), db')
    end.
Proof.
  unfold try_query. cbn [run].
  destruct (query sql values db) as [[r | err] db']; reflexivity.
Qed.

Lemma run_resolved sql values then_ db r db' :
  query sql values db = (Resolved r, db') →
  run query (try_query sql values then_) db = run query (then_ r) db'.
Proof. intros Hq. rewrite run_try_query, Hq. reflexivity. Qed.

Lemma run_rejected sql values then_ db err db' :
  query sql values db = (Rejected err, db') →
  run query (try_query sql values then_) db =
    (status_json 500 (error_body (message err)), db').
Proof. intros Hq. rewrite run_try_query, Hq. reflexivity. Qed.
End RunFacts.

(** Every handler awaits one query and then responds. *)
Lemma handler_shape (h : Req → Prog) :
  h ∈ handlers →
  ∀ req, ∃ sql values then_,
    h req = try_query sql values then_ ∧ ∀ r, ∃ resp, then_ r = Respond resp.
Proof.
  intros Hh req. unfold handlers, routes in Hh. cbn in Hh.
  repeat (apply elem_of_cons in Hh as [-> | Hh]); [.. | by apply elem_of_nil in Hh].
  - do 3 eexists. split; [reflexivity |]. intros r. eexists. reflexivity.
  - do 3 eexists. split; [reflexivity |]. intros r. cbn beta.
    destruct (strict_eq_num _ _); eexists; reflexivity.
  - do 3 eexists. split; [reflexivity |]. intros r. eexists. reflexivity.
  - do 3 eexists. split; [reflexivity |]. intros r. cbn beta.
    destruct (strict_eq_num _ _); eexists; reflexivity.
  - do 3 eexists. split; [reflexivity |]. intros r. cbn beta.
    destruct (strict_eq_num _ _); eexists; reflexivity.
Qed.

(** ** Storage failures *)

(** C8: each of the five handlers awaits one query, and when that query is
    rejected with an error the handler answers 500 with the body
    [{ error: err.message }], whatever the storage and the request. *)
Theorem storage_error_gives_500 :
  Forall (λ h : Req → Prog,
    ∀ req, ∃ sql values,
      (∃ k, h req = Await sql values k) ∧
      ∀ (Db : Type) (query : string → list JsVal → Db → Outcome * Db) db err db',
        query sql values db = (Rejected err, db') →
        run query (h req) db =
          ({| status := 500; payload := JObj {["error" := JStr (message err)]} |}, db'))
    handlers.
Proof.
  apply Forall_forall. intros h Hh req.
  destruct (handler_shape h Hh req) as (sql & values & then_ & -> & _).
  exists sql, values. split; [eexists; reflexivity |].
  intros Db query db err db' Hq. by apply run_rejected.
Qed.

(** A storage that is down: every query is rejected. *)
Lemma storage_error_gives_500_witness :
  run (λ (_ : string) (_ : list JsVal) (db : unit), (Rejected {| message := "ECONNREFUSED" |}, db))
      (delete_movie {| params := {["id" := "7"%string]}; body := ∅ |}) tt =
    ({| status := 500; payload := JObj {["error" := JStr "ECONNREFUSED"]} |}, tt).
Proof.
  pose proof storage_error_gives_500 as Hall.
  rewrite Forall_forall in Hall.
  destruct (Hall delete_movie) with (req := {| params := {["id" := "7"%string]}; body := ∅ |})
    as (sql & values & _ & Hrun).
  - unfold handlers, routes. cbn. do 4 apply list_elem_of_further. apply list_elem_of_here.
  - apply (Hrun unit _ tt {| message := "ECONNREFUSED" |} tt). reflexivity.
Defined.

(** ** GET /movies/:id *)

(** C4: the handler awaits the SELECT by id with the path parameter bound;
    when the query yields zero rows it answers 404 with the body
    [{ message: "Film non trouvé" }], and its status is 404 exactly when the
    query yields zero rows. *)
Theorem get_by_id_404_iff_zero_rows
    (Db : Type) (query : string → list JsVal → Db → Outcome * Db) (req : Req) (db : Db) :
  let o := (query SELECT_BY_ID [param_id req] db).1 in
  let r := (run query (get_movie_by_id req) db).1 in
  (o = Resolved (Rows []) →
     r = {| status := 404; payload := JObj {["message" := JStr "Film non trouvé"]} |}) ∧
  (status r = 404 ↔ o = Resolved (Rows [])).
Proof.
  cbn zeta. unfold get_movie_by_id. rewrite run_try_query.
  destruct (query SELECT_BY_ID [param_id req] db) as [[[[| row rows] | h] | err] db']; cbn.
  - split; [reflexivity | split; reflexivity].
  - split; [discriminate | split; discriminate].
  - split; [discriminate | split; discriminate].
  - split; [discriminate | split; discriminate].
Qed.

(** ** GET /movies *)

(** C7: when the SELECT of all movies resolves with [rows], the handler
    answers 200 with the array of these rows: same length, same order. *)
Theorem get_movies_lists_all_rows
    (Db : Type) (query : string → list JsVal → Db → Outcome * Db) (req : Req) (db db' : Db)
    (rows : list (gmap string JsVal)) :
  query SELECT_ALL [] db = (Resolved (Rows rows), db') →
  ∃ l, run query (get_movies req) db = ({| status := 200; payload := JArr l |}, db') ∧
       length l = length rows ∧
       ∀ i : nat, l !! i = JObj <$> rows !! i.
Proof.
  intros Hq. exists (JObj <$> rows). split; [| split].
  - unfold get_movies. by rewrite (run_resolved _ _ _ _ _ _ _ Hq).
  - apply length_fmap.
  - intros i. apply list_lookup_fmap.
Qed.

(** ** Routing *)

Example match_id_segment :
  match_path decodeURIComponent [Lit "movies"; Param "id"] "/movies/12" =
    Matched {["id" := "12"%string]}.
Proof. reflexivity. Qed.

Example match_ignores_case_and_trailing_slash :
  match_path decodeURIComponent [Lit "movies"; Param "id"] "/Movies/12/" =
    Matched {["id" := "12"%string]}.
Proof. reflexivity. Qed.

Example match_rejects_empty_id :
  match_path decodeURIComponent [Lit "movies"; Param "id"] "/movies//" = NoMatch.
Proof. reflexivity. Qed.

Example match_movies_trailing_slash :
  match_path decodeURIComponent [Lit "movies"] "/movies/" = Matched ∅.
Proof. reflexivity. Qed.

Example match_movies_rejects_longer_path :
  match_path decodeURIComponent [Lit "movies"] "/movies/1" = NoMatch.
Proof. reflexivity. Qed.

Example match_decodes_id :
  match_path decodeURIComponent [Lit "movies"; Param "id"] "/movies/a%2Fb" =
    Matched {["id" := "a/b"%string]}.
Proof. reflexivity. Qed.

Example match_fails_to_decode_id :
  match_path decodeURIComponent [Lit "movies"; Param "id"] "/movies/%zz" =
    DecodeFailed "%zz".
Proof. reflexivity. Qed.

Example route_get_movie :
  dispatch decodeURIComponent routes {| method := GET; path := "/movies/7"; json_body := ∅ |} =
    get_movie_by_id {| params := {["id" := "7"%string]}; body := ∅ |}.
Proof. reflexivity. Qed.

Example route_get_movie_escaped :
  dispatch decodeURIComponent routes {| method := GET; path := "/movies/%31"; json_body := ∅ |} =
    get_movie_by_id {| params := {["id" := "1"%string]}; body := ∅ |}.
Proof. reflexivity. Qed.

Example route_head_movies :
  dispatch decodeURIComponent routes {| method := HEAD; path := "/movies"; json_body := ∅ |} =
    get_movies {| params := ∅; body := ∅ |}.
Proof. reflexivity. Qed.

Example route_put_trailing_slash :
  dispatch decodeURIComponent routes
    {| method := PUT; path := "/Movies/7/"; json_body := {["size" := JStr "1.5GB"]} |} =
    put_movie {| params := {["id" := "7"%string]}; body := {["size" := JStr "1.5GB"]} |}.
Proof. reflexivity. Qed.

Example route_empty_id :
  dispatch decodeURIComponent routes {| method := GET; path := "/movies//"; json_body := ∅ |} =
    catch_all.
Proof. reflexivity. Qed.

Example route_bad_escape_any_method :
  dispatch decodeURIComponent routes {| method := PATCH; path := "/movies/%zz"; json_body := ∅ |} =
    Respond (bad_request "%zz").
Proof. reflexivity. Qed.

Section Routing.
Variable decode : string → option string.

(** Once an error is pending, no route runs. *)
Lemma dispatch_pending_some (val : string) (rs : list Route) (r : HttpRequest) :
  dispatch_pending decode (Some val) rs r = Respond (bad_request val).
Proof.
  induction rs as [| rt rs IH]; [reflexivity |].
  cbn [dispatch_pending]. by destruct (match_path decode (route_path rt) (path r)).
Qed.

(** *** Paths with an id *)

Lemma segments_slash_free (s : string) : slash_free s = true → segments s = [s].
Proof.
  induction s as [| c s IH]; [reflexivity |].
  cbn [slash_free segments]. intros [Hc Hs]%andb_prop.
  apply negb_true_iff in Hc. rewrite Hc, (IH Hs). reflexivity.
Qed.

Lemma match_path_movie_id (s : string) :
  slash_free s = true → s ≠ "" →
  match_path decode [Lit "movies"; Param "id"] ("/movies/" +:+ s) =
    match decode s with
    | Some v => Matched {["id" := v]}
    | None => DecodeFailed s
    end ∧
  match_path decode [Lit "movies"] ("/movies/" +:+ s) = NoMatch.
Proof.
  intros Hs Hne.
  assert (segments ("/movies/" +:+ s) = [""; "movies"; s]%string) as Hsegs.
  { cbv beta iota delta [String.append]. cbn [segments].
    rewrite (segments_slash_free s Hs). reflexivity. }
  assert (drop_trailing_slash ["movies"%string; s] = ["movies"%string; s]) as Hdrop.
  { by destruct s. }
  assert (String.eqb s "" = false) as Hempty by by apply String.eqb_neq.
  unfold match_path. rewrite Hsegs, Hdrop. cbn [match_segments].
  change (String.eqb (lower "movies") (lower "movies")) with true. cbn iota.
  rewrite Hempty. split; [| reflexivity].
  destruct (decode s); [| reflexivity]. by rewrite insert_empty.
Qed.

(** X12: a path [/movies/s] with a non-empty segment [s] is answered 400 when
    [s] cannot be decoded, whatever the method; otherwise it reaches the
    handler that the method selects, with the decoded [s] as [req.params.id]:
    GET and HEAD look up, PUT updates, DELETE deletes, and POST, PATCH and
    OPTIONS fall to the catch-all. *)
Lemma dispatch_movie_id (m : Method) (s : string) (b : gmap string JsVal) :
  slash_free s = true → s ≠ "" →
  dispatch decode routes {| method := m; path := "/movies/" +:+ s; json_body := b |} =
    match decode s with
    | None => Respond (bad_request s)
    | Some v =>
        match m with
        | GET | HEAD => get_movie_by_id {| params := {["id" := v]}; body := b |}
        | PUT => put_movie {| params := {["id" := v]}; body := b |}
        | DELETE => delete_movie {| params := {["id" := v]}; body := b |}
        | POST | PATCH | OPTIONS => catch_all
        end
    end.
Proof.
  intros Hs Hne. destruct (match_path_movie_id s Hs Hne) as [Hid Hall].
  unfold dispatch, routes.
  cbn [dispatch_pending route_method route_path handler method path json_body].
  rewrite Hid, Hall. destruct (decode s) as [v |].
  - destruct m; reflexivity.
  - reflexivity.
Qed.

Lemma dispatch_movies (m : Method) (b : gmap string JsVal) :
  dispatch decode routes {| method := m; path := "/movies"; json_body := b |} =
    match m with
    | GET | HEAD => get_movies {| params := ∅; body := b |}
    | POST => post_movies {| params := ∅; body := b |}
    | PUT | DELETE | PATCH | OPTIONS => catch_all
    end.
Proof. destruct m; reflexivity. Qed.

End Routing.

Lemma string_of_uint_slash_free (d : Decimal.uint) :
  slash_free (NilEmpty.string_of_uint d) = true.
Proof. induction d; cbn; done. Qed.

Lemma nilzero_string_segment (d : Decimal.uint) :
  slash_free (NilZero.string_of_uint d) = true ∧ NilZero.string_of_uint d ≠ "".
Proof.
  destruct d; cbn; (split; [first [reflexivity | apply string_of_uint_slash_free] | done]).
Qed.

(** The decimal text of an id is one path segment. *)
Lemma decimal_segment (n : Z) : slash_free (decimal n) = true ∧ decimal n ≠ "".
Proof.
  unfold decimal, NilZero.string_of_int.
  destruct (Z.to_int n) as [d | d].
  - apply nilzero_string_segment.
  - split; [apply nilzero_string_segment | done].
Qed.

(** *** The documentation middleware comes first *)

(** Whatever the request, the documentation middleware answers it: no route
    and no catch-all is reached, and the storage is not queried. *)
Lemma swagger_ui_answers_every_request
    (decode : string → option string) (serve : HttpRequest → option Response)
    (r : HttpRequest) :
  ∃ answer, swagger_ui serve r = Some answer ∧ app decode (swagger_ui serve) r = Respond answer.
Proof.
  unfold app, swagger_ui. destruct (serve r) as [file |]; eexists; split; reflexivity.
Qed.

(** C3, at GET /unknown: the request matches none of the five movie routes,
    so the routes and the catch-all by themselves answer it 404 with
    [{ message: "Route non trouvée" }]; the application answers it 200 with
    the documentation page, because the documentation middleware registered
    before the routes answers every request that is not for one of its own
    files, and the catch-all is never reached. *)
Theorem unknown_route_gets_swagger_page
    (decode : string → option string) (serve : HttpRequest → option Response) :
  let r := {| method := GET; path := "/unknown"; json_body := ∅ |} in
  serve r = None →
  dispatch decode routes r =
    Respond {| status := 404; payload := JObj {["message" := JStr "Route non trouvée"]} |} ∧
  ∀ (Db : Type) (query : string → list JsVal → Db → Outcome * Db) (db : Db),
    run query (app decode (swagger_ui serve) r) db =
      ({| status := 200; payload := JStr "Swagger UI" |}, db).
Proof.
  intros r Hserve. split; [reflexivity |].
  intros Db query db. unfold app, swagger_ui. rewrite Hserve. reflexivity.
Qed.

(** The documentation has no file of that name. *)
Lemma unknown_route_gets_swagger_page_witness :
  dispatch decodeURIComponent routes {| method := GET; path := "/unknown"; json_body := ∅ |} =
    Respond {| status := 404; payload := JObj {["message" := JStr "Route non trouvée"]} |} ∧
  ∀ (Db : Type) (query : string → list JsVal → Db → Outcome * Db) (db : Db),
    run query
        (app decodeURIComponent (swagger_ui (λ _, None))
             {| method := GET; path := "/unknown"; json_body := ∅ |}) db =
      ({| status := 200; payload := JStr "Swagger UI" |}, db).
Proof.
  apply (unknown_route_gets_swagger_page decodeURIComponent (λ _, None)). reflexivity.
Defined.

(** ** The [movies] table *)

Lemma query_select_all t :
  mysql_query SELECT_ALL [] t = (Resolved (Rows (row_json <$> rows t)), t).
Proof. reflexivity. Qed.

Lemma query_select_by_id v t :
  mysql_query SELECT_BY_ID [v] t =
    (Resolved (Rows (row_json <$> filter (has_id v) (rows t))), t).
Proof. reflexivity. Qed.

Lemma query_insert b t :
  mysql_query INSERT_MOVIE (insert_values b) t =
    (ok 1 (auto_increment t),
     {| rows := rows t ++ [{| row_id := auto_increment t; fields := record_of (insert_values b) |}];
        auto_increment := auto_increment t + 1 |}).
Proof. reflexivity. Qed.

Lemma query_update req t :
  mysql_query UPDATE_MOVIE (update_values req) t =
    (ok (Z.of_nat (length (filter (has_id (param_id req)) (rows t)))) 0,
     {| rows := (λ r, if has_id (param_id req) r
                      then {| row_id := row_id r;
                              fields := record_of (take 7 (update_values req)) |}
                      else r) <$> rows t;
        auto_increment := auto_increment t |}).
Proof. reflexivity. Qed.

Lemma query_delete v t :
  mysql_query DELETE_MOVIE [v] t =
    (ok (Z.of_nat (length (filter (has_id v) (rows t)))) 0,
     {| rows := filter (λ r, ¬ has_id v r) (rows t);
        auto_increment := auto_increment t |}).
Proof. reflexivity. Qed.

Lemma sql_int_decimal n : sql_int (JStr (decimal n)) = Some n.
Proof.
  unfold sql_int, decimal. rewrite NilZero.isi.
  - cbn. f_equal. apply DecimalZ.of_to.
  - destruct n; cbn; [discriminate | | discriminate].
    intros [= H]. by apply DecimalPos.Unsigned.to_uint_nonnil in H.
  - destruct n; cbn; [discriminate | discriminate |].
    intros [= H]. by apply DecimalPos.Unsigned.to_uint_nonnil in H.
Qed.

Lemma has_id_decimal n r : has_id (JStr (decimal n)) r = (row_id r =? n).
Proof. unfold has_id. by rewrite sql_int_decimal. Qed.

Lemma filter_has_id_none v (l : list MovieRow) :
  Forall (λ r, ¬ has_id v r) l → filter (has_id v) l = [].
Proof.
  induction 1 as [| r l Hr _ IH]; [reflexivity |].
  rewrite filter_cons_False by exact Hr. exact IH.
Qed.

Lemma filter_has_id_after_delete v (l : list MovieRow) :
  filter (has_id v) (filter (λ r, ¬ has_id v r) l) = [].
Proof.
  apply filter_has_id_none, Forall_forall. intros r Hr.
  by apply list_elem_of_filter in Hr as [Hr _].
Qed.

Lemma update_none_is_identity v new (l : list MovieRow) :
  filter (has_id v) l = [] →
  (λ r, if has_id v r then {| row_id := row_id r; fields := new |} else r) <$> l = l.
Proof.
  induction l as [| r l IH]; [reflexivity |].
  rewrite filter_cons. destruct (has_id v r) eqn:Hr; cbn.
  - discriminate.
  - intros H. rewrite Hr. f_equal. by apply IH.
Qed.

Lemma wf_empty : wf empty_table.
Proof. split; [apply NoDup_nil_2 | apply Forall_nil_2]. Qed.

(** Every statement keeps ids unique and below the counter. *)
Lemma wf_query sql values t : wf t → wf (mysql_query sql values t).2.
Proof.
  intros [Hnd Hlt]. unfold mysql_query.
  repeat case_match; try (split; assumption); unfold wf; cbn [snd rows auto_increment].
  - split.
    + rewrite fmap_app. cbn. apply NoDup_app. split; [done |]. split; [| apply NoDup_singleton].
      intros x Hx ->%list_elem_of_singleton.
      apply list_elem_of_fmap in Hx as (r & Hr & Hin).
      rewrite Forall_forall in Hlt. specialize (Hlt r Hin). lia.
    + apply Forall_app. split.
      * eapply Forall_impl; [exact Hlt |]. cbn. intros; lia.
      * apply Forall_singleton. cbn. lia.
  - split.
    + rewrite <- list_fmap_compose.
      erewrite list_fmap_ext; [exact Hnd |].
      intros i r _. cbn. by destruct (has_id _ r).
    + apply Forall_fmap. eapply Forall_impl; [exact Hlt |].
      intros r Hr. cbn. by destruct (has_id _ r).
  - split.
    + apply NoDup_fmap_2_strong; [| apply NoDup_filter; by apply NoDup_fmap_1 in Hnd].
      intros r1 r2 [_ Hin1]%list_elem_of_filter [_ Hin2]%list_elem_of_filter Heq.
      apply list_elem_of_lookup in Hin1 as [i Hi], Hin2 as [i' Hi'].
      assert (i = i') as ->.
      { eapply NoDup_lookup; [exact Hnd | |]; rewrite list_lookup_fmap.
        - by rewrite Hi.
        - rewrite Hi'. cbn. by rewrite Heq. }
      congruence.
    + apply Forall_forall. intros r [_ Hin]%list_elem_of_filter.
      rewrite Forall_forall in Hlt. by apply Hlt.
Qed.

(** So does every table that the service can reach. *)
Lemma reachable_wf t : reachable t → wf t.
Proof.
  induction 1 as [| sql values t _ IH]; [apply wf_empty | by apply wf_query].
Qed.

Lemma to_sql_or_false v : to_sql (js_or v (JBool false)) = js_or v (JBool false).
Proof. unfold js_or. destruct v; cbn; repeat case_match; reflexivity. Qed.

(** The row that the INSERT of a POST leaves in the table, as a later
    SELECT returns it. *)
Lemma inserted_row_columns n (b : gmap string JsVal) :
  let row := row_json {| row_id := n; fields := record_of (insert_values b) |} in
  row !! "id" = Some (JNum n) ∧
  (∀ k, k ∈ string_properties → row !! k = Some (to_sql (prop b k))) ∧
  row !! "is_new" = Some (js_or (prop b "is_new") (JBool false)).
Proof.
  cbn zeta. split; [reflexivity | split].
  - intros k Hk. unfold string_properties in Hk.
    repeat (apply elem_of_cons in Hk as [-> | Hk]); try reflexivity.
    by apply elem_of_nil in Hk.
  - rewrite <- to_sql_or_false. reflexivity.
Qed.

Lemma movie_input_properties (b : gmap string JsVal) :
  is_movie_input b = true →
  ∀ k v, b !! k = Some v → movie_input_property (k, v) = true.
Proof.
  unfold is_movie_input. intros [_ Hall]%andb_prop k v Hkv.
  rewrite forallb_forall in Hall. apply Hall.
  apply list_elem_of_In. by apply elem_of_map_to_list.
Qed.

Lemma movie_input_no_id (b : gmap string JsVal) :
  is_movie_input b = true → b !! "id" = None.
Proof.
  intros Hb. destruct (b !! "id") as [v |] eqn:Hid; [| reflexivity].
  apply (movie_input_properties b Hb) in Hid. discriminate Hid.
Qed.

(** ** POST /movies *)

(** C1: on a table whose ids are unique and below the counter, POST /movies
    with a movie input answers 201 with a number as id, and GET /movies/:id
    with that id then answers 200 with a row that has this id, in which every
    property of the input has the posted value, and in which [is_new] is
    [false] when the input omits it. *)
Theorem post_then_get_returns_input (b : gmap string JsVal) (t : Table) :
  wf t →
  is_movie_input b = true →
  ∃ (n : Z) (created : gmap string JsVal) (t1 : Table) (row : gmap string JsVal),
    run mysql_query (post_movies {| params := ∅; body := b |}) t =
      ({| status := 201; payload := JObj created |}, t1) ∧
    created !! "id" = Some (JNum n) ∧
    run mysql_query (get_movie_by_id {| params := {["id" := decimal n]}; body := ∅ |}) t1 =
      ({| status := 200; payload := JObj row |}, t1) ∧
    row !! "id" = Some (JNum n) ∧
    (∀ k v, b !! k = Some v → row !! k = Some v) ∧
    (b !! "is_new" = None → row !! "is_new" = Some (JBool false)).
Proof.
  intros [_ Hlt] Hb.
  set (n := auto_increment t).
  set (r := {| row_id := n; fields := record_of (insert_values b) |}).
  exists n, (id_then_spread (JNum n) b),
    {| rows := rows t ++ [r]; auto_increment := n + 1 |}, (row_json r).
  destruct (inserted_row_columns n b) as (Hid & Hstr & Hnew).
  split; [| split; [| split; [| split; [| split]]]].
  - unfold post_movies. rewrite run_try_query. cbn [body]. rewrite query_insert. reflexivity.
  - unfold id_then_spread. rewrite lookup_union_r by by apply movie_input_no_id.
    apply lookup_singleton_eq.
  - unfold get_movie_by_id, param_id. cbn [params]. rewrite lookup_singleton_eq. cbn [from_option].
    rewrite run_try_query, query_select_by_id. cbn [rows].
    rewrite filter_app, filter_has_id_none.
    + rewrite filter_cons_True by (rewrite has_id_decimal; cbn; by rewrite Z.eqb_refl).
      reflexivity.
    + eapply Forall_impl; [exact Hlt |]. intros r' Hr'. rewrite has_id_decimal.
      cbn beta in Hr'. destruct (Z.eqb_spec (row_id r') n) as [Heq |]; [| by intros []].
      unfold n in Heq. lia.
  - exact Hid.
  - intros k v Hkv. unfold r.
    pose proof (movie_input_properties b Hb k v Hkv) as Hp.
    unfold movie_input_property in Hp. cbn [fst snd] in Hp.
    case_bool_decide as Hk.
    + rewrite (Hstr k Hk). unfold prop. rewrite Hkv. cbn. by destruct v.
    + apply andb_prop in Hp as [->%String.eqb_eq Hv].
      rewrite Hnew. unfold prop. rewrite Hkv. cbn. by destruct v as [| | [] | | | |].
  - intros Hnone. unfold r. rewrite Hnew. unfold prop. by rewrite Hnone.
Qed.

(** The input of the spec's example, posted to the empty table. *)
Lemma post_then_get_returns_input_witness :
  ∃ (n : Z) (created : gmap string JsVal) (t1 : Table) (row : gmap string JsVal),
    run mysql_query
        (post_movies {| params := ∅;
                        body := <["title_file" := JStr "Inception"]> {["is_new" := JBool true]} |})
        empty_table =
      ({| status := 201; payload := JObj created |}, t1) ∧
    created !! "id" = Some (JNum n) ∧
    run mysql_query (get_movie_by_id {| params := {["id" := decimal n]}; body := ∅ |}) t1 =
      ({| status := 200; payload := JObj row |}, t1) ∧
    row !! "id" = Some (JNum n) ∧
    (∀ k v, (<["title_file" := JStr "Inception"]> {["is_new" := JBool true]} : gmap string JsVal) !! k
              = Some v → row !! k = Some v) ∧
    ((<["title_file" := JStr "Inception"]> {["is_new" := JBool true]} : gmap string JsVal) !! "is_new"
       = None → row !! "is_new" = Some (JBool false)).
Proof.
  apply post_then_get_returns_input.
  - split; [apply NoDup_nil_2 | apply Forall_nil_2].
  - vm_compute. reflexivity.
Defined.

(** C2, at a request body that carries an id of its own: the storage
    generates id 1 for the inserted row, and the 201 response carries the
    client's 99. *)
Theorem post_response_id_is_overridden :
  let b : gmap string JsVal := <["id" := JNum 99]> {["title_file" := JStr "Inception"]} in
  ∃ created,
    run mysql_query (post_movies {| params := ∅; body := b |}) empty_table =
      ({| status := 201; payload := JObj created |},
       {| rows := [{| row_id := 1; fields := record_of (insert_values b) |}];
          auto_increment := 2 |}) ∧
    mysql_query INSERT_MOVIE (insert_values b) empty_table =
      (ok 1 1,
       {| rows := [{| row_id := 1; fields := record_of (insert_values b) |}];
          auto_increment := 2 |}) ∧
    created !! "id" = Some (JNum 99).
Proof.
  cbn zeta. eexists. split; [| split].
  - unfold post_movies. rewrite run_try_query. cbn [body]. rewrite query_insert. reflexivity.
  - reflexivity.
  - reflexivity.
Qed.

(** Without an id in the body, the id of the response is the generated one. *)
Lemma post_response_id_generated
    (Db : Type) (query : string → list JsVal → Db → Outcome * Db) (req : Req) (db db' : Db)
    (h : ResultSetHeader) :
  body req !! "id" = None →
  query INSERT_MOVIE (insert_values (body req)) db = (Resolved (Header h), db') →
  ∃ created,
    run query (post_movies req) db = ({| status := 201; payload := JObj created |}, db') ∧
    created !! "id" = Some (JNum (insertId h)).
Proof.
  intros Hid Hq. eexists. split.
  - unfold post_movies. rewrite (run_resolved _ _ _ _ _ _ _ Hq). reflexivity.
  - unfold id_then_spread. rewrite lookup_union_r by done. apply lookup_singleton_eq.
Qed.

(** C10: the INSERT binds [is_new || false] as its seventh value, which is
    [false] for every falsy [is_new] ([false], [0], the empty string, [null],
    or none at all); the table stores that value in the new row; the 201
    response carries the [is_new] of the request body as it was sent. *)
Theorem post_stores_is_new_or_false (req : Req) (t : Table) :
  let supplied := prop (body req) "is_new" in
  let stored := js_or supplied (JBool false) in
  (∃ k, post_movies req = Await INSERT_MOVIE (insert_values (body req)) k ∧
        ∀ h, ∃ created,
          k (Resolved (Header h)) = Respond {| status := 201; payload := JObj created |} ∧
          created !! "is_new" = body req !! "is_new") ∧
  insert_values (body req) !! 6%nat = Some stored ∧
  (truthy supplied = false → stored = JBool false) ∧
  (truthy supplied = true → stored = supplied) ∧
  Forall (λ v, truthy v = false) [JBool false; JNum 0; JStr ""; JNull; JUndefined] ∧
  ∃ created r,
    run mysql_query (post_movies req) t =
      ({| status := 201; payload := JObj created |},
       {| rows := rows t ++ [r]; auto_increment := auto_increment t + 1 |}) ∧
    fields r !! "is_new" = Some stored ∧
    created !! "is_new" = body req !! "is_new".
Proof.
  assert (∀ v, id_then_spread v (body req) !! "is_new" = body req !! "is_new") as Hecho.
  { intros v. unfold id_then_spread. rewrite lookup_union.
    rewrite lookup_singleton_ne by done. by destruct (body req !! "is_new"). }
  cbn zeta. split; [| split; [reflexivity | split; [| split; [| split]]]].
  - eexists. split; [reflexivity |]. intros h. eexists. split; [reflexivity | apply Hecho].
  - unfold js_or. by intros ->.
  - unfold js_or. by intros ->.
  - repeat constructor.
  - eexists _, {| row_id := auto_increment t; fields := record_of (insert_values (body req)) |}.
    split; [| split].
    + unfold post_movies. rewrite run_try_query, query_insert. reflexivity.
    + cbn [fields]. rewrite <- to_sql_or_false. reflexivity.
    + apply Hecho.
Qed.

(** ** PUT /movies/:id *)

(** C5: when no row of the table has the id of the path, PUT answers 404 and
    the table after the request is the table before it. *)
Theorem put_unknown_id_changes_nothing (req : Req) (t : Table) :
  filter (has_id (param_id req)) (rows t) = [] →
  run mysql_query (put_movie req) t =
    ({| status := 404; payload := JObj {["message" := JStr "Film non trouvé"]} |}, t).
Proof.
  intros Hnone. unfold put_movie. rewrite run_try_query, query_update, Hnone.
  rewrite update_none_is_identity by exact Hnone.
  destruct t. reflexivity.
Qed.

(** A table with movie 1 only, asked to update movie 2. *)
Lemma put_unknown_id_changes_nothing_witness :
  let t := {| rows := [{| row_id := 1; fields := {["title_file" := JStr "Inception"]} |}];
              auto_increment := 2 |} in
  run mysql_query
      (put_movie {| params := {["id" := "2"%string]}; body := {["title_file" := JStr "Heat"]} |}) t =
    ({| status := 404; payload := JObj {["message" := JStr "Film non trouvé"]} |}, t).
Proof.
  cbn zeta. apply put_unknown_id_changes_nothing. vm_compute. reflexivity.
Defined.

(** C9: when the UPDATE affected a row, PUT answers 200 with the request body
    spread over [{ id: req.params.id }].  The body of the response is made of
    the request alone, after the one UPDATE and without a further query: its
    id is the path segment, a string, unless the request body has an [id],
    which then takes its place; every property of the request body is echoed,
    and there is no other property. *)
Theorem put_success_echoes_request
    (Db : Type) (query : string → list JsVal → Db → Outcome * Db)
    (s : string) (b : gmap string JsVal) (h : ResultSetHeader) (db db' : Db) :
  let req := {| params := {["id" := s]}; body := b |} in
  affectedRows h ≠ 0 →
  query UPDATE_MOVIE (update_values req) db = (Resolved (Header h), db') →
  ∃ echoed,
    put_movie req = try_query UPDATE_MOVIE (update_values req)
                      (λ result, if strict_eq_num (affectedRows_of result) 0
                                 then Respond film_non_trouve
                                 else Respond (json (JObj echoed))) ∧
    run query (put_movie req) db = ({| status := 200; payload := JObj echoed |}, db') ∧
    echoed = b ∪ {["id" := JStr s]} ∧
    (b !! "id" = None → echoed !! "id" = Some (JStr s)) ∧
    (∀ k v, b !! k = Some v → echoed !! k = Some v) ∧
    (∀ k, k ≠ "id" → echoed !! k = b !! k).
Proof.
  intros req Hh Hq. exists (b ∪ {["id" := JStr s]}).
  assert (param_id req = JStr s) as Hid.
  { unfold param_id, req. cbn [params]. by rewrite lookup_singleton_eq. }
  split; [| split; [| split; [| split; [| split]]]].
  - unfold put_movie, id_then_spread. rewrite Hid. reflexivity.
  - unfold put_movie. rewrite (run_resolved _ _ _ _ _ _ _ Hq). cbn.
    destruct (Z.eqb_spec (affectedRows h) 0); [done |].
    unfold id_then_spread. by rewrite Hid.
  - reflexivity.
  - intros Hnone. rewrite lookup_union_r by done. apply lookup_singleton_eq.
  - intros k v Hkv. by apply lookup_union_Some_l.
  - intros k Hk. rewrite lookup_union, lookup_singleton_ne by done.
    by destruct (b !! k).
Qed.

(** Movie 1 is in the table; the body carries an id of its own and a
    property that is no column. *)
Lemma put_success_echoes_request_witness :
  let t := {| rows := [{| row_id := 1; fields := {["title_file" := JStr "Inception"]} |}];
              auto_increment := 2 |} in
  let b : gmap string JsVal := <["id" := JNum 42]> {["note" := JStr "x"]} in
  ∃ echoed t',
    run mysql_query (put_movie {| params := {["id" := "1"%string]}; body := b |}) t =
      ({| status := 200; payload := JObj echoed |}, t') ∧
    echoed !! "id" = Some (JNum 42) ∧
    echoed !! "note" = Some (JStr "x").
Proof.
  cbn zeta.
  destruct (put_success_echoes_request Table mysql_query "1"
              (<["id" := JNum 42]> {["note" := JStr "x"]})
              {| affectedRows := 1; insertId := 0 |}
              {| rows := [{| row_id := 1; fields := {["title_file" := JStr "Inception"]} |}];
                 auto_increment := 2 |}
              (mysql_query UPDATE_MOVIE
                 (update_values {| params := {["id" := "1"%string]};
                                   body := <["id" := JNum 42]> {["note" := JStr "x"]} |})
                 {| rows := [{| row_id := 1; fields := {["title_file" := JStr "Inception"]} |}];
                    auto_increment := 2 |}).2)
    as (echoed & _ & Hrun & _ & _ & Hecho & _).
  - cbn. lia.
  - vm_compute. reflexivity.
  - exists echoed. eexists. split; [exact Hrun | split; apply Hecho; reflexivity].
Defined.

(** ** DELETE /movies/:id *)

(** C6: when a row of the table has the id of the path, DELETE answers 200
    with [{ message: "Film supprimé avec succès" }], the table is left with
    the rows of other ids only, and GET with the same id then answers 404. *)
Theorem delete_then_get_not_found (req : Req) (t : Table) :
  (∃ r, r ∈ rows t ∧ has_id (param_id req) r = true) →
  ∃ t',
    run mysql_query (delete_movie req) t =
      ({| status := 200; payload := JObj {["message" := JStr "Film supprimé avec succès"]} |}, t') ∧
    rows t' = filter (λ r, ¬ has_id (param_id req) r) (rows t) ∧
    Forall (λ r, has_id (param_id req) r = false) (rows t') ∧
    run mysql_query (get_movie_by_id req) t' =
      ({| status := 404; payload := JObj {["message" := JStr "Film non trouvé"]} |}, t').
Proof.
  intros (r & Hin & Hr).
  eexists. split; [| split; [| split]].
  - unfold delete_movie. rewrite run_try_query, query_delete.
    assert (r ∈ filter (has_id (param_id req)) (rows t)) as Hf.
    { apply list_elem_of_filter. split; [by rewrite Hr | done]. }
    destruct (filter (has_id (param_id req)) (rows t)) as [| r' l]; [by apply elem_of_nil in Hf |].
    reflexivity.
  - reflexivity.
  - cbn [rows]. apply Forall_forall. intros r' [Hr' _]%list_elem_of_filter.
    by destruct (has_id (param_id req) r').
  - unfold get_movie_by_id. rewrite run_try_query, query_select_by_id. cbn [rows].
    by rewrite filter_has_id_after_delete.
Qed.

(** The spec's example: movie 1 is deleted, then looked up. *)
Lemma delete_then_get_not_found_witness :
  let t := {| rows := [{| row_id := 1; fields := {["title_file" := JStr "Inception"]} |}];
              auto_increment := 2 |} in
  let req := {| params := {["id" := "1"%string]}; body := ∅ |} in
  ∃ t',
    run mysql_query (delete_movie req) t =
      ({| status := 200; payload := JObj {["message" := JStr "Film supprimé avec succès"]} |}, t') ∧
    rows t' = filter (λ r, ¬ has_id (param_id req) r) (rows t) ∧
    Forall (λ r, has_id (param_id req) r = false) (rows t') ∧
    run mysql_query (get_movie_by_id req) t' =
      ({| status := 404; payload := JObj {["message" := JStr "Film non trouvé"]} |}, t').
Proof.
  cbn zeta. apply delete_then_get_not_found.
  eexists. split; [apply list_elem_of_here | vm_compute; reflexivity].
Defined.

(** Two movies in the table, listed in storage order. *)
Lemma get_movies_lists_all_rows_witness :
  ∃ l, run mysql_query (get_movies {| params := ∅; body := ∅ |})
           {| rows := [{| row_id := 1; fields := {["title_file" := JStr "Inception"]} |};
                       {| row_id := 2; fields := {["title_file" := JStr "Heat"]} |}];
              auto_increment := 3 |} =
         ({| status := 200; payload := JArr l |},
          {| rows := [{| row_id := 1; fields := {["title_file" := JStr "Inception"]} |};
                      {| row_id := 2; fields := {["title_file" := JStr "Heat"]} |}];
             auto_increment := 3 |}) ∧
       length l =
         length [row_json {| row_id := 1; fields := {["title_file" := JStr "Inception"]} |};
                 row_json {| row_id := 2; fields := {["title_file" := JStr "Heat"]} |}] ∧
       ∀ i : nat,
         l !! i =
           JObj <$> [row_json {| row_id := 1; fields := {["title_file" := JStr "Inception"]} |};
                     row_json {| row_id := 2; fields := {["title_file" := JStr "Heat"]} |}] !! i.
Proof.
  apply (get_movies_lists_all_rows Table mysql_query {| params := ∅; body := ∅ |}).
  reflexivity.
Defined.

(** A lookup in the empty table. *)
Lemma get_by_id_404_iff_zero_rows_witness :
  (run mysql_query (get_movie_by_id {| params := {["id" := "5"%string]}; body := ∅ |}) empty_table).1 =
    {| status := 404; payload := JObj {["message" := JStr "Film non trouvé"]} |}.
Proof.
  apply (get_by_id_404_iff_zero_rows Table mysql_query
           {| params := {["id" := "5"%string]}; body := ∅ |} empty_table).
  reflexivity.
Defined.

(** On the table, the SELECT by id yields zero rows when no row has the id. *)
Lemma get_unknown_id_not_found (req : Req) (t : Table) :
  Forall (λ r, has_id (param_id req) r = false) (rows t) →
  run mysql_query (get_movie_by_id req) t = (film_non_trouve, t).
Proof.
  intros Hnone. unfold get_movie_by_id. rewrite run_try_query, query_select_by_id.
  rewrite filter_has_id_none; [reflexivity |].
  eapply Forall_impl; [exact Hnone |]. cbn. intros r ->. by intros [].
Qed.

(** [is_new: 0] is stored as [false]. *)
Lemma post_stores_is_new_or_false_witness :
  insert_values (<["is_new" := JNum 0]> {["title_file" := JStr "Inception"]}) !! 6%nat =
    Some (JBool false).
Proof.
  exact (proj1 (proj2 (post_stores_is_new_or_false
           {| params := ∅; body := <["is_new" := JNum 0]> {["title_file" := JStr "Inception"]} |}
           empty_table))).
Defined.

(** ** The example of the spec, request by request

    The three requests as the routes answer them, that is without the
    documentation middleware in front. *)

Example post_delete_get_scenario :
  let post := {| method := POST; path := "/movies";
                 json_body := <["title_file" := JStr "Inception"]> {["is_new" := JBool true]} |} in
  let del := {| method := DELETE; path := "/movies/1"; json_body := ∅ |} in
  let get := {| method := GET; path := "/movies/1"; json_body := ∅ |} in
  let '(r1, t1) := run mysql_query (dispatch decodeURIComponent routes post) empty_table in
  let '(r2, t2) := run mysql_query (dispatch decodeURIComponent routes del) t1 in
  let '(r3, t3) := run mysql_query (dispatch decodeURIComponent routes get) t2 in
  r1 = {| status := 201;
          payload := JObj (<["id" := JNum 1]>
                             (<["title_file" := JStr "Inception"]> {["is_new" := JBool true]})) |} ∧
  r2 = {| status := 200; payload := JObj {["message" := JStr "Film supprimé avec succès"]} |} ∧
  r3 = {| status := 404; payload := JObj {["message" := JStr "Film non trouvé"]} |} ∧
  t3 = {| rows := []; auto_increment := 2 |}.
Proof. vm_compute. repeat split; reflexivity. Qed.

(** * Further properties of the handlers *)

(** ** The statement of each handler *)

(** X1: whenever one of the five handlers issues its query, the text of the
    statement is the constant of that handler, whatever the request, and the
    values bound are as many as the text has [?] placeholders. *)
Theorem issued_statement_is_fixed_and_fully_bound
    (i : nat) (h : Req → Prog) (text : string) (req : Req)
    (sql : string) (values : list JsVal) :
  handlers !! i = Some h →
  statements !! i = Some text →
  awaited (h req) = Some (sql, values) →
  sql = text ∧ length values = placeholders text.
Proof.
  unfold handlers, statements, routes.
  destruct i as [| [| [| [| [| i]]]]]; cbn [fmap list_fmap handler lookup list_lookup];
    intros [= <-] [= <-]; try done.
  all: lazymatch goal with
       | |- awaited (?f _) = _ → _ => unfold f
       end;
    cbn [awaited try_query]; intros [= <- <-]; split; reflexivity.
Qed.

(** The INSERT of a POST with a title. *)
Lemma issued_statement_is_fixed_and_fully_bound_witness :
  INSERT_MOVIE = INSERT_MOVIE ∧
  length (insert_values {["title_file" := JStr "Heat"]}) = placeholders INSERT_MOVIE.
Proof.
  apply (issued_statement_is_fixed_and_fully_bound 2 post_movies INSERT_MOVIE
           {| params := ∅; body := {["title_file" := JStr "Heat"]} |}); reflexivity.
Defined.

(** ** Status codes *)

Section StatusCodes.
Context {Db : Type}.
Variable query : string → list JsVal → Db → Outcome * Db.

(** X2: for any storage and request, GET /movies answers 200 or 500, POST
    /movies answers 201 or 500, and the three handlers with an id answer 200,
    404 or 500: no handler rejects a request on its own with another code. *)
Theorem handler_status_codes (req : Req) (db : Db) :
  status (run query (get_movies req) db).1 ∈ [200; 500] ∧
  status (run query (get_movie_by_id req) db).1 ∈ [200; 404; 500] ∧
  status (run query (post_movies req) db).1 ∈ [201; 500] ∧
  status (run query (put_movie req) db).1 ∈ [200; 404; 500] ∧
  status (run query (delete_movie req) db).1 ∈ [200; 404; 500].
Proof.
  unfold get_movies, get_movie_by_id, post_movies, put_movie, delete_movie.
  rewrite !run_try_query.
  repeat split.
  - destruct (query SELECT_ALL _ db) as [[r | err] db']; cbn; set_solver.
  - destruct (query SELECT_BY_ID _ db) as [[r | err] db']; cbn; [| set_solver].
    destruct (strict_eq_num _ _); cbn; set_solver.
  - destruct (query INSERT_MOVIE _ db) as [[r | err] db']; cbn; set_solver.
  - destruct (query UPDATE_MOVIE _ db) as [[r | err] db']; cbn; [| set_solver].
    destruct (strict_eq_num _ _); cbn; set_solver.
  - destruct (query DELETE_MOVIE _ db) as [[r | err] db']; cbn; [| set_solver].
    destruct (strict_eq_num _ _); cbn; set_solver.
Qed.

(** X3: for any storage, the three handlers that do not read the request
    body, GET /movies, GET /movies/:id and DELETE /movies/:id, answer 500 only
    when their query was rejected, and always then. *)
Theorem status_500_iff_rejected (req : Req) (db : Db) :
  Forall (λ h : Req → Prog,
    status (run query (h req) db).1 = 500 ↔
    ∃ sql values err,
      awaited (h req) = Some (sql, values) ∧ (query sql values db).1 = Rejected err)
    [get_movies; get_movie_by_id; delete_movie].
Proof.
  repeat apply List.Forall_cons; [.. | apply List.Forall_nil].
  all: lazymatch goal with
       | |- context [run _ (?h _) _] => unfold h
       end;
    rewrite run_try_query; cbn [awaited try_query];
    match goal with
    | |- context [match ?q with _ => _ end] =>
        destruct q as [[r | err] db'] eqn:Hq
    end; cbn [fst].
  all: try (split; [intros _; do 3 eexists; split; [reflexivity | by rewrite Hq] | done]).
  all: try destruct (strict_eq_num _ _); cbn.
  all: split; [done |];
    intros (sql & values & err & [= <- <-] & Hrej); rewrite Hq in Hrej; done.
Qed.
End StatusCodes.

(** ** Not found and found *)

Section NotFound.
Context {Db : Type}.
Variable query : string → list JsVal → Db → Outcome * Db.

(** X4: for any storage, DELETE answers 404 with "Film non trouvé" exactly
    when its query resolved with a header of zero affected rows, and 200 with
    "Film supprimé avec succès" for every other resolved query, however many
    rows it affected. *)
Theorem delete_404_iff_nothing_affected (req : Req) (db : Db) :
  let o := (query DELETE_MOVIE [param_id req] db).1 in
  let r := (run query (delete_movie req) db).1 in
  (status r = 404 ↔ ∃ h, o = Resolved (Header h) ∧ affectedRows h = 0) ∧
  (status r = 404 → payload r = JObj {["message" := JStr "Film non trouvé"]}) ∧
  (status r = 200 ↔ ∃ res, o = Resolved res ∧ ∀ h, res = Header h → affectedRows h ≠ 0) ∧
  (status r = 200 → payload r = JObj {["message" := JStr "Film supprimé avec succès"]}).
Proof.
  cbn zeta. unfold delete_movie. rewrite run_try_query.
  destruct (query DELETE_MOVIE [param_id req] db) as [[[rows | h] | err] db']; cbn.
  - repeat split; try done.
    + by intros (h & [=] & _).
    + intros _. eexists. split; [reflexivity | done].
  - destruct (Z.eqb_spec (affectedRows h) 0) as [Hz | Hnz]; cbn.
    + repeat split; try done.
      * intros _. by exists h.
      * intros (res & [= <-] & Hres). by destruct (Hres h).
    + repeat split; try done.
      * by intros (h' & [= <-] & Hz).
      * intros _. eexists. split; [reflexivity |]. by intros h' [= <-].
  - repeat split; try done.
    + by intros (h & [=] & _).
    + by intros (res & [=] & _).
Qed.

(** X5: for any storage, PUT answers 404 with "Film non trouvé" exactly when
    its query resolved with a header of zero affected rows; the request body
    is then not echoed. *)
Theorem put_404_iff_nothing_affected (req : Req) (db : Db) :
  let o := (query UPDATE_MOVIE (update_values req) db).1 in
  let r := (run query (put_movie req) db).1 in
  (status r = 404 ↔ ∃ h, o = Resolved (Header h) ∧ affectedRows h = 0) ∧
  (status r = 404 → payload r = JObj {["message" := JStr "Film non trouvé"]}) ∧
  (status r = 200 ↔ ∃ res, o = Resolved res ∧ ∀ h, res = Header h → affectedRows h ≠ 0).
Proof.
  cbn zeta. unfold put_movie. rewrite run_try_query.
  destruct (query UPDATE_MOVIE (update_values req) db) as [[[rows | h] | err] db']; cbn.
  - repeat split; try done.
    + by intros (h & [=] & _).
    + intros _. eexists. split; [reflexivity | done].
  - destruct (Z.eqb_spec (affectedRows h) 0) as [Hz | Hnz]; cbn.
    + repeat split; try done.
      * intros _. by exists h.
      * intros (res & [= <-] & Hres). by destruct (Hres h).
    + repeat split; try done.
      * by intros (h' & [= <-] & Hz).
      * intros _. eexists. split; [reflexivity |]. by intros h' [= <-].
  - repeat split; try done.
    + by intros (h & [=] & _).
    + by intros (res & [=] & _).
Qed.

(** X6: for any storage, when the SELECT by id resolves with one row or more,
    GET /movies/:id answers 200 with the first row alone. *)
Theorem get_by_id_returns_first_row
    (req : Req) (db db' : Db) (row : gmap string JsVal) (others : list (gmap string JsVal)) :
  query SELECT_BY_ID [param_id req] db = (Resolved (Rows (row :: others)), db') →
  run query (get_movie_by_id req) db = ({| status := 200; payload := JObj row |}, db').
Proof.
  intros Hq. unfold get_movie_by_id. rewrite (run_resolved _ _ _ _ _ _ _ Hq). cbn.
  destruct (Z.eqb_spec (Z.pos (Pos.of_succ_nat (length others))) 0); [lia | reflexivity].
Qed.
End NotFound.

(** A storage that answers every query with the same two rows. *)
Lemma get_by_id_returns_first_row_witness :
  run (λ (_ : string) (_ : list JsVal) (db : unit),
         (Resolved (Rows [{["id" := JNum 1]}; {["id" := JNum 2]}]), db))
      (get_movie_by_id {| params := {["id" := "1"%string]}; body := ∅ |}) tt =
    ({| status := 200; payload := JObj {["id" := JNum 1]} |}, tt).
Proof.
  apply (get_by_id_returns_first_row
           (λ (_ : string) (_ : list JsVal) (db : unit),
              (Resolved (Rows [{["id" := JNum 1]}; {["id" := JNum 2]}]), db))
           {| params := {["id" := "1"%string]}; body := ∅ |} tt tt
           {["id" := JNum 1]} [{["id" := JNum 2]}]).
  reflexivity.
Defined.

(** ** What of the body is bound and what is echoed *)

(** X7: a property of the request body that is none of the seven columns is
    bound by neither POST nor PUT, so the statement and its values are the
    same with and without it; the 201 response of POST nevertheless carries
    it. *)
Theorem unknown_property_echoed_not_bound
    (req : Req) (k : string) (v : JsVal) (h : ResultSetHeader) :
  k ∉ bound_properties →
  let req' := {| params := params req; body := <[k := v]> (body req) |} in
  awaited (post_movies req') = awaited (post_movies req) ∧
  awaited (put_movie req') = awaited (put_movie req) ∧
  ∀ (Db : Type) (query : string → list JsVal → Db → Outcome * Db) (db db' : Db),
    query INSERT_MOVIE (insert_values (body req)) db = (Resolved (Header h), db') →
    ∃ created,
      run query (post_movies req') db = ({| status := 201; payload := JObj created |}, db') ∧
      created !! k = Some v.
Proof.
  intros Hk req'.
  assert (∀ c, c ∈ bound_properties → prop (body req') c = prop (body req) c) as Hprop.
  { intros c Hc. unfold prop, req'. cbn [body].
    rewrite lookup_insert_ne; [done |]. intros ->. by apply Hk. }
  assert (insert_values (body req') = insert_values (body req)) as Hins.
  { unfold insert_values. rewrite !Hprop; [done | unfold bound_properties; set_solver ..]. }
  assert (update_values req' = update_values req) as Hupd.
  { unfold update_values. cbn zeta. rewrite !Hprop; [done | unfold bound_properties; set_solver ..]. }
  split; [| split].
  - unfold post_movies. cbn [awaited try_query]. by rewrite Hins.
  - unfold put_movie. cbn [awaited try_query]. by rewrite Hupd.
  - intros Db query db db' Hq. eexists. split.
    + unfold post_movies. rewrite Hins, (run_resolved _ _ _ _ _ _ _ Hq). reflexivity.
    + unfold id_then_spread, req'. cbn [body].
      apply lookup_union_Some_l, lookup_insert_eq.
Qed.

(** A note is sent along with a title. *)
Lemma unknown_property_echoed_not_bound_witness :
  awaited (post_movies {| params := ∅;
                          body := <["note" := JStr "x"]> {["title_file" := JStr "Heat"]} |}) =
    awaited (post_movies {| params := ∅; body := {["title_file" := JStr "Heat"]} |}).
Proof.
  refine (proj1 (unknown_property_echoed_not_bound
                   {| params := ∅; body := {["title_file" := JStr "Heat"]} |}
                   "note" (JStr "x") {| affectedRows := 1; insertId := 1 |} _)).
  apply (bool_decide_unpack _). vm_compute. exact I.
Defined.

(** X8: PUT binds [is_new] as the body has it, where POST binds
    [is_new || false]: for a body whose [is_new] is missing, [null], [0] or
    the empty string, POST binds [false] and PUT binds [undefined], [null],
    [0] or the empty string. *)
Theorem put_binds_is_new_uncoerced (req : Req) :
  let supplied := prop (body req) "is_new" in
  (∃ k, put_movie req = Await UPDATE_MOVIE (update_values req) k) ∧
  update_values req !! 6%nat = Some supplied ∧
  (truthy supplied = false →
     insert_values (body req) !! 6%nat = Some (JBool false) ∧
     (supplied ≠ JBool false →
        insert_values (body req) !! 6%nat ≠ update_values req !! 6%nat)) ∧
  (truthy supplied = true →
     insert_values (body req) !! 6%nat = update_values req !! 6%nat).
Proof.
  cbn zeta. split; [eexists; reflexivity |]. split; [reflexivity |].
  unfold insert_values, update_values, js_or. cbn.
  split; intros ->; [split; [done | congruence] | done].
Qed.

(** ** Which handler a request reaches *)

Section Dispatch.
Variable decode : string → option string.

Lemma segments_are_slash_free (p : string) :
  Forall (λ s, slash_free s = true) (segments p).
Proof.
  induction p as [| c p IH]; cbn [segments].
  - by apply Forall_singleton.
  - destruct (Ascii.eqb c (Ascii.ascii_of_nat 47)) eqn:Hc.
    + by apply Forall_cons.
    + destruct (segments p) as [| x xs].
      * apply Forall_singleton. cbn. by rewrite Hc.
      * apply Forall_cons in IH as [Hx Hxs]. apply Forall_cons. split; [| done].
        cbn. by rewrite Hc, Hx.
Qed.

Lemma drop_trailing_slash_sublist (segs : list string) :
  drop_trailing_slash segs ⊆ segs.
Proof.
  unfold drop_trailing_slash. destruct (reverse segs) as [| [| c x] r] eqn:Hrev; try done.
  intros s Hs. apply elem_of_reverse. rewrite Hrev.
  apply list_elem_of_further. by apply elem_of_reverse.
Qed.

(** The segments that every route path is matched against. *)
Lemma match_path_segments (p : string) :
  (∀ pat, match_path decode pat p = NoMatch) ∨
  ∃ segs, Forall (λ s, slash_free s = true) segs ∧
          ∀ pat, match_path decode pat p = match_segments decode pat segs.
Proof.
  unfold match_path. pose proof (segments_are_slash_free p) as Hfree.
  destruct (segments p) as [| [| c x] segs]; [by left | | by left].
  right. exists (drop_trailing_slash segs). split; [| done].
  apply Forall_cons in Hfree as [_ Hfree]. rewrite Forall_forall in Hfree.
  apply Forall_forall. intros s Hs. by apply Hfree, drop_trailing_slash_sublist.
Qed.

(** How a path stands to the two route paths of the application. *)
Lemma path_cases (p : string) :
  let list_path := match_path decode [Lit "movies"] p in
  let id_path := match_path decode [Lit "movies"; Param "id"] p in
  (list_path = NoMatch ∧ id_path = NoMatch) ∨
  (list_path = Matched ∅ ∧ id_path = NoMatch) ∨
  (∃ s v, s ≠ "" ∧ slash_free s = true ∧ decode s = Some v ∧
          list_path = NoMatch ∧ id_path = Matched {["id" := v]}) ∨
  (∃ s, s ≠ "" ∧ slash_free s = true ∧ decode s = None ∧
        list_path = NoMatch ∧ id_path = DecodeFailed s).
Proof.
  cbn zeta. destruct (match_path_segments p) as [Hnone | (segs & Hfree & Hsegs)].
  { left. by rewrite !Hnone. }
  rewrite !Hsegs. clear Hsegs.
  destruct segs as [| x [| s [| z rest]]]; cbn [match_segments].
  - by left.
  - destruct (String.eqb (lower "movies") (lower x)); [right; left | left]; done.
  - destruct (String.eqb (lower "movies") (lower x)); [| by left].
    destruct (String.eqb_spec s "") as [-> | Hne]; [by left |].
    apply Forall_cons in Hfree as [_ [Hs _]%Forall_cons].
    destruct (decode s) as [v |] eqn:Hv.
    + right; right; left. exists s, v. by rewrite insert_empty.
    + right; right; right. by exists s.
  - destruct (String.eqb (lower "movies") (lower x)); [| by left].
    destruct (String.eqb s ""); by left.
Qed.


(** X10: a PATCH or an OPTIONS request never reaches a movie handler and
    never makes the service query its storage, whatever the path and whatever
    the middleware in front of the routes does: when that middleware passes
    the request on, the answer is the 404 of the catch-all, or 400 when the
    id segment of the path cannot be decoded. *)
Theorem patch_and_options_never_query
    (swagger : HttpRequest → option Response) (p : string) (b : gmap string JsVal) :
  Forall (λ m,
    let r := {| method := m; path := p; json_body := b |} in
    awaited (app decode swagger r) = None ∧
    (dispatch decode routes r = catch_all ∨
     ∃ s, decode s = None ∧ dispatch decode routes r = Respond (bad_request s)))
    [PATCH; OPTIONS].
Proof.
  assert (∀ m, m = PATCH ∨ m = OPTIONS →
            dispatch decode routes {| method := m; path := p; json_body := b |} = catch_all ∨
            ∃ s, decode s = None ∧
                 dispatch decode routes {| method := m; path := p; json_body := b |}
                 = Respond (bad_request s)) as Hroutes.
  { intros m Hm. unfold dispatch, routes.
    cbn [dispatch_pending route_method route_path handler method path json_body].
    destruct (path_cases p)
      as [[-> ->] | [[-> ->] | [(s & v & _ & _ & _ & -> & ->) | (s & _ & _ & Hv & -> & ->)]]].
    - by left.
    - destruct Hm as [-> | ->]; by left.
    - destruct Hm as [-> | ->]; by left.
    - right. by exists s. }
  repeat apply List.Forall_cons; [.. | apply List.Forall_nil]; cbn zeta.
  all: split; [| apply Hroutes; auto].
  all: unfold app; destruct (swagger _); [reflexivity |].
  - destruct (Hroutes PATCH) as [-> | (s & _ & ->)]; auto.
  - destruct (Hroutes OPTIONS) as [-> | (s & _ & ->)]; auto.
Qed.

(** *** The order of the five routes *)

Lemma dispatch_outcomes (rs : list Route) (r : HttpRequest) :
  dispatch decode rs r = default catch_all (head (omap (λ rt, outcome decode rt r) rs)).
Proof.
  unfold dispatch. induction rs as [| rt rs IH]; [reflexivity |].
  cbn [dispatch_pending omap list_omap]. unfold outcome at 1.
  destruct (match_path decode (route_path rt) (path r)) as [| ps | val].
  - exact IH.
  - destruct (handles_method (route_method rt) (method r)); [reflexivity | exact IH].
  - cbn. apply dispatch_pending_some.
Qed.

(** Whatever a route of the application makes of a request on its own is
    what the application makes of it. *)
Lemma outcome_of_route (rt : Route) (r : HttpRequest) (o : Prog) :
  rt ∈ routes → outcome decode rt r = Some o → o = dispatch decode routes r.
Proof.
  destruct r as [m p b]. intros Hrt.
  unfold dispatch, routes.
  cbn [dispatch_pending route_method route_path handler method path json_body].
  unfold routes in Hrt.
  repeat (apply elem_of_cons in Hrt as [-> | Hrt]); [.. | by apply elem_of_nil in Hrt];
    unfold outcome; cbn [route_method route_path handler method path json_body];
    destruct (path_cases p)
      as [[-> ->] | [[-> ->] | [(s & v & _ & _ & _ & -> & ->) | (s & _ & _ & _ & -> & ->)]]];
    try done; destruct m; cbn; intros [= <-]; reflexivity.
Qed.

(** X11: the five routes may be registered in any order: every request
    reaches the same handler with the same parameters, or the same 400, or
    the catch-all. *)
Theorem route_order_is_irrelevant (rs : list Route) (r : HttpRequest) :
  rs ≡ₚ routes →
  dispatch decode rs r = dispatch decode routes r.
Proof.
  intros Hperm. rewrite (dispatch_outcomes rs).
  destruct (omap (λ rt, outcome decode rt r) rs) as [| o os] eqn:Hrs.
  - rewrite (dispatch_outcomes routes).
    destruct (omap (λ rt, outcome decode rt r) routes) as [| o' os'] eqn:Hroutes;
      [reflexivity |].
    assert (o' ∈ omap (λ rt, outcome decode rt r) routes) as Ho'
      by (rewrite Hroutes; apply list_elem_of_here).
    apply list_elem_of_omap in Ho' as (rt & Hrt & Hout).
    assert (o' ∈ omap (λ rt, outcome decode rt r) rs) as Hin.
    { apply list_elem_of_omap. exists rt. split; [by rewrite Hperm | done]. }
    rewrite Hrs in Hin. by apply elem_of_nil in Hin.
  - assert (o ∈ omap (λ rt, outcome decode rt r) rs) as Ho
      by (rewrite Hrs; apply list_elem_of_here).
    apply list_elem_of_omap in Ho as (rt & Hrt & Hout).
    cbn [head default from_option id]. apply (outcome_of_route rt); [by rewrite <- Hperm | done].
Qed.

End Dispatch.

(** The routes registered last to first. *)
Lemma route_order_is_irrelevant_witness :
  dispatch decodeURIComponent (reverse routes)
    {| method := PUT; path := "/movies/7"; json_body := ∅ |} =
  dispatch decodeURIComponent routes {| method := PUT; path := "/movies/7"; json_body := ∅ |}.
Proof.
  apply route_order_is_irrelevant. apply reverse_Permutation.
Defined.

(** DELETE /movies/42, the id being the decimal text of a number. *)
Lemma dispatch_movie_id_witness :
  dispatch decodeURIComponent routes
    {| method := DELETE; path := "/movies/" +:+ decimal 42; json_body := ∅ |} =
    delete_movie {| params := {["id" := decimal 42]}; body := ∅ |}.
Proof.
  apply (dispatch_movie_id decodeURIComponent DELETE (decimal 42) ∅);
    [reflexivity | discriminate].
Defined.

(** ** Configuration *)

(** X14: the pool always gets a non-empty host: [DB_HOST] when it is set and
    not empty, "localhost" when it is unset or empty.  The user, the password
    and the database name have no default: each is the variable as it is,
    empty included, or [undefined]. *)
Theorem pool_host_defaults_to_localhost (env : gmap string string) :
  (∃ h, host (pool_options env) = JStr h ∧ h ≠ "" ∧
        (env !! "DB_HOST" = Some h ∨
         h = "localhost" ∧ (env !! "DB_HOST" = None ∨ env !! "DB_HOST" = Some ""))) ∧
  user (pool_options env) = from_option JStr JUndefined (env !! "DB_USER") ∧
  password (pool_options env) = from_option JStr JUndefined (env !! "DB_PASSWORD") ∧
  database (pool_options env) = from_option JStr JUndefined (env !! "DB_NAME").
Proof.
  split; [| done].
  unfold pool_options, env_var, js_or. cbn [host].
  destruct (env !! "DB_HOST") as [h |]; cbn.
  - destruct (String.eqb_spec h "") as [-> | Hne]; cbn.
    + exists "localhost". split; [done | split; [done | right; auto]].
    + exists h. auto.
  - exists "localhost". split; [done | split; [done | right; auto]].
Qed.

(** X15: the port is [PORT] as a string when it is set and not empty, and the
    number 3000 when it is unset or empty. *)
Theorem port_defaults_to_3000 (env : gmap string string) :
  match env !! "PORT" with
  | Some p => if String.eqb p "" then port env = JNum 3000 else port env = JStr p
  | None => port env = JNum 3000
  end.
Proof.
  unfold port, env_var, js_or.
  destruct (env !! "PORT") as [p |]; cbn; [| done].
  by destruct (String.eqb p "").
Qed.

(** ** Composition on the table *)

Lemma filter_has_id_update v new (l : list MovieRow) :
  filter (has_id v)
    ((λ r, if has_id v r then {| row_id := row_id r; fields := new |} else r) <$> l) =
  (λ r, {| row_id := row_id r; fields := new |}) <$> filter (has_id v) l.
Proof.
  induction l as [| r l IH]; [reflexivity |].
  rewrite fmap_cons, !filter_cons. destruct (has_id v r) eqn:Hr.
  - assert (has_id v {| row_id := row_id r; fields := new |} = true) as Hr'.
    { unfold has_id in *. exact Hr. }
    rewrite !decide_True by (by rewrite ?Hr'). rewrite fmap_cons. by f_equal.
  - rewrite Hr. rewrite !decide_False by (by intros []). exact IH.
Qed.

Lemma filter_not_has_id_all v (l : list MovieRow) :
  filter (has_id v) l = [] → filter (λ r, ¬ has_id v r) l = l.
Proof.
  induction l as [| r l IH]; [reflexivity |].
  rewrite !filter_cons. destruct (has_id v r) eqn:Hr; cbn.
  - discriminate.
  - intros H. rewrite decide_True by (intros []). f_equal. by apply IH.
Qed.

(** X16: on the table, a PUT to the id of an existing row overwrites all seven
    columns of that row with what the body has for them, so that a column
    missing from the body becomes null; the id of the row and the ids in the
    table stay as they are.  GET with the same id then answers that row. *)
Theorem put_then_get_returns_body_columns (req : Req) (t : Table) :
  (∃ r, r ∈ rows t ∧ has_id (param_id req) r = true) →
  ∃ echoed t1 row n,
    run mysql_query (put_movie req) t = ({| status := 200; payload := JObj echoed |}, t1) ∧
    row_id <$> rows t1 = row_id <$> rows t ∧
    run mysql_query (get_movie_by_id req) t1 = ({| status := 200; payload := JObj row |}, t1) ∧
    sql_int (param_id req) = Some n ∧
    row !! "id" = Some (JNum n) ∧
    (∀ k, k ∈ bound_properties → row !! k = Some (to_sql (prop (body req) k))) ∧
    (∀ k, k ∈ bound_properties → body req !! k = None → row !! k = Some JNull).
Proof.
  intros (r & Hin & Hr).
  assert (r ∈ filter (has_id (param_id req)) (rows t)) as Hf.
  { apply list_elem_of_filter. split; [by rewrite Hr | done]. }
  destruct (filter (has_id (param_id req)) (rows t)) as [| r0 rest] eqn:Hfilter;
    [by apply elem_of_nil in Hf |].
  assert (has_id (param_id req) r0 = true) as Hr0.
  { assert (r0 ∈ filter (has_id (param_id req)) (rows t)) as H0
      by (rewrite Hfilter; apply list_elem_of_here).
    apply list_elem_of_filter in H0 as [H0 _]. by destruct (has_id (param_id req) r0). }
  unfold has_id in Hr0. destruct (sql_int (param_id req)) as [n |] eqn:Hn; [| done].
  apply Z.eqb_eq in Hr0.
  set (new := record_of (take 7 (update_values req))).
  assert (∀ k, k ∈ bound_properties →
            row_json {| row_id := row_id r0; fields := new |} !! k
            = Some (to_sql (prop (body req) k))) as Hcols.
  { intros k Hk. unfold bound_properties in Hk.
    repeat (apply elem_of_cons in Hk as [-> | Hk]); try reflexivity.
    by apply elem_of_nil in Hk. }
  eexists _, _, (row_json {| row_id := row_id r0; fields := new |}), n.
  split; [| split; [| split; [| split; [| split; [| split]]]]].
  - unfold put_movie. rewrite run_try_query, query_update, Hfilter. reflexivity.
  - cbn [rows]. rewrite <- list_fmap_compose. apply list_fmap_ext.
    intros i x _. cbn. by destruct (has_id _ x).
  - unfold get_movie_by_id. rewrite run_try_query, query_select_by_id. cbn [rows].
    fold new. rewrite filter_has_id_update, Hfilter. reflexivity.
  - reflexivity.
  - unfold row_json. cbn [row_id]. rewrite lookup_insert_eq. by rewrite Hr0.
  - exact Hcols.
  - intros k Hk Hnone. rewrite (Hcols k Hk). unfold prop. by rewrite Hnone.
Qed.

(** Movie 1 has a title and a size; the PUT sends a title only. *)
Lemma put_then_get_returns_body_columns_witness :
  ∃ echoed t1 row n,
    run mysql_query
        (put_movie {| params := {["id" := "1"%string]}; body := {["title_file" := JStr "Heat"]} |})
        {| rows := [{| row_id := 1;
                       fields := <["size" := JStr "1.5GB"]> {["title_file" := JStr "Inception"]} |}];
           auto_increment := 2 |} =
      ({| status := 200; payload := JObj echoed |}, t1) ∧
    row_id <$> rows t1 = [1] ∧
    run mysql_query
        (get_movie_by_id {| params := {["id" := "1"%string]};
                            body := {["title_file" := JStr "Heat"]} |}) t1 =
      ({| status := 200; payload := JObj row |}, t1) ∧
    n = 1 ∧
    row !! "title_file" = Some (JStr "Heat") ∧
    row !! "size" = Some JNull.
Proof.
  destruct (put_then_get_returns_body_columns
              {| params := {["id" := "1"%string]}; body := {["title_file" := JStr "Heat"]} |}
              {| rows := [{| row_id := 1;
                             fields := <["size" := JStr "1.5GB"]>
                                         {["title_file" := JStr "Inception"]} |}];
                 auto_increment := 2 |})
    as (echoed & t1 & row & n & Hput & Hids & Hget & Hn & _ & Hcols & Hnull).
  - eexists. split; [apply list_elem_of_here | vm_compute; reflexivity].
  - exists echoed, t1, row, n. split; [exact Hput |]. split; [exact Hids |].
    split; [exact Hget |]. split; [| split].
    + vm_compute in Hn. by injection Hn.
    + apply (Hcols "title_file"). apply list_elem_of_here.
    + apply (Hnull "size"); [| reflexivity].
      do 5 apply list_elem_of_further. apply list_elem_of_here.
Defined.

Lemma run_delete (req : Req) (t : Table) :
  run mysql_query (delete_movie req) t =
    (if Z.of_nat (length (filter (has_id (param_id req)) (rows t))) =? 0
     then film_non_trouve else film_supprime,
     {| rows := filter (λ r, ¬ has_id (param_id req) r) (rows t);
        auto_increment := auto_increment t |}).
Proof.
  unfold delete_movie. rewrite run_try_query, query_delete. cbn.
  by destruct (_ =? 0).
Qed.

(** X17: on the table, a second DELETE with the same id answers 404 and
    leaves the table as the first DELETE left it, whether or not the first
    one found a row. *)
Theorem delete_twice_is_not_found (req : Req) (t : Table) :
  let t1 := (run mysql_query (delete_movie req) t).2 in
  run mysql_query (delete_movie req) t1 =
    ({| status := 404; payload := JObj {["message" := JStr "Film non trouvé"]} |}, t1).
Proof.
  cbn zeta. rewrite (run_delete req t). cbn [snd].
  rewrite run_delete. cbn [rows auto_increment].
  rewrite filter_has_id_after_delete.
  rewrite filter_not_has_id_all by apply filter_has_id_after_delete.
  reflexivity.
Qed.
